(** * monitors.go: the no-data timeframe decoder and the monitor client

    A shallow embedding of [src/monitors.go] of the Datadog API binding.

    - [strconv] holds the part of Go's [strconv] package the decoder calls
      ([ParseInt], [ParseUint]) and the one the JSON encoder uses for an
      integer ([FormatInt]), with Go's unsigned and signed 64-bit arithmetic
      written out over [Z].
    - [UnmarshalJSON] is the decoding hook of [NoDataTimeframe]; the receiver
      [*tf] is a one-cell state threaded through the method.
    - The client methods are one-request wrappers over the transport
      [doJSONRequest], which lives in another file of the package and is
      taken here as a parameter (class [Transport]). *)

From Stdlib Require Import ZArith List Bool Lia.
From Stdlib.Strings Require Import Ascii String Byte.

Local Open Scope string_scope.
Local Open Scope Z_scope.

(* ===================================================================== *)
(** ** Go's fixed-width integers *)
(* ===================================================================== *)

(** [uint64(x)]: reduction modulo 2^64. *)
Definition uint64 (x : Z) : Z := x mod 2 ^ 64.

(** [int64(x)]: the two's complement reading of the low 64 bits. *)
Definition int64 (x : Z) : Z :=
  let u := x mod 2 ^ 64 in
  if u <? 2 ^ 63 then u else u - 2 ^ 64.

(** [byte(x)]: reduction modulo 2^8. *)
Definition byte8 (x : Z) : Z := x mod 2 ^ 8.

(** The code of a character of a Go string (a byte). *)
Definition code (c : ascii) : Z := Z.of_N (N_of_ascii c).

(* ===================================================================== *)
(** ** Package strconv *)
(* ===================================================================== *)

Module strconv.

(** [strconv.ErrSyntax], [strconv.ErrRange], and the two errors built by
    [baseError] and [bitSizeError]. *)
Inductive Err : Type :=
| ErrSyntax
| ErrRange
| ErrBase (base : Z)
| ErrBitSize (bitSize : Z).

(** [strconv.NumError]: the failing function, the input text, the cause. *)
Record NumError : Type := mkNumError {
  Func : string;
  Num : string;
  Cause : Err
}.

Definition Err_eqb (a b : Err) : bool :=
  match a, b with
  | ErrSyntax, ErrSyntax => true
  | ErrRange, ErrRange => true
  | ErrBase x, ErrBase y => x =? y
  | ErrBitSize x, ErrBitSize y => x =? y
  | _, _ => false
  end.

Definition syntaxError (fn str : string) : NumError := mkNumError fn str ErrSyntax.
Definition rangeError (fn str : string) : NumError := mkNumError fn str ErrRange.
Definition baseError (fn str : string) (base : Z) : NumError :=
  mkNumError fn str (ErrBase base).
Definition bitSizeError (fn str : string) (bitSize : Z) : NumError :=
  mkNumError fn str (ErrBitSize bitSize).

Definition IntSize : Z := 64.
Definition maxUint64 : Z := 2 ^ 64 - 1.

Definition fnParseUint : string := "ParseUint".
Definition fnParseInt : string := "ParseInt".

(** [lower(c)]: [c | ('x' ^ 'X')], that is, [c | 0x20]. *)
Definition lower (c : Z) : Z := Z.lor c (Z.lxor 120 88).

(** The digit value of one byte in the loop of [ParseUint]; [None] is the
    [default] case of the switch (a syntax error). *)
Definition digitval (c : Z) : option Z :=
  if (48 <=? c) && (c <=? 57) then Some (byte8 (c - 48))
  else if (97 <=? lower c) && (lower c <=? 122) then Some (byte8 (lower c - 97 + 10))
  else None.

(** The loop [for _, c := range []byte(s)] of [ParseUint], from the
    accumulator [n]. The result is Go's pair (value, error cause). *)
Fixpoint parseLoop (base cutoff maxVal : Z) (s : string) (n : Z) : Z * option Err :=
  match s with
  | EmptyString => (n, None)
  | String c rest =>
      match digitval (code c) with
      | None => (0, Some ErrSyntax)
      | Some d =>
          if d >=? byte8 base then (0, Some ErrSyntax)
          else if n >=? cutoff then (maxVal, Some ErrRange)
          else
            let n' := uint64 (n * base) in
            let n1 := uint64 (n' + d) in
            if (n1 <? n') || (n1 >? maxVal) then (maxVal, Some ErrRange)
            else parseLoop base cutoff maxVal rest n1
      end
  end.

(** [strconv.ParseUint], for an explicit base. The branch [base == 0]
    (prefix detection and underscores) is not part of this model: the only
    caller passes base 10, and a base outside 2..36 is answered with
    [baseError] as in the [default] case. *)
Definition ParseUint (s : string) (base bitSize : Z) : Z * option NumError :=
  match s with
  | EmptyString => (0, Some (syntaxError fnParseUint s))
  | _ =>
      let s0 := s in
      if negb ((2 <=? base) && (base <=? 36)) then
        (0, Some (baseError fnParseUint s0 base))
      else if (bitSize <? 0) || (bitSize >? 64) then
        (0, Some (bitSizeError fnParseUint s0 bitSize))
      else
        let bitSize := if bitSize =? 0 then IntSize else bitSize in
        let cutoff := maxUint64 / base + 1 in
        let maxVal := uint64 (uint64 (Z.shiftl 1 bitSize) - 1) in
        match parseLoop base cutoff maxVal s 0 with
        | (n, Some e) => (n, Some (mkNumError fnParseUint s0 e))
        | (n, None) => (n, None)
        end
  end.

(** The test of [ParseInt] that the error of [ParseUint] is present and
    is not [ErrRange]: the cause of such an error. *)
Definition notRange (err : option NumError) : option Err :=
  match err with
  | Some e => if Err_eqb (Cause e) ErrRange then None else Some (Cause e)
  | None => None
  end.

(** [strconv.ParseInt]. *)
Definition ParseInt (s : string) (base bitSize : Z) : Z * option NumError :=
  match s with
  | EmptyString => (0, Some (syntaxError fnParseInt s))
  | String c rest =>
      let s0 := s in
      let '(neg, s) :=
        if code c =? 43 then (false, rest)
        else if code c =? 45 then (true, rest)
        else (false, s) in
      let '(un, err) := ParseUint s base bitSize in
      match notRange err with
      | Some cause => (0, Some (mkNumError fnParseInt s0 cause))
      | None =>
          let bitSize := if bitSize =? 0 then IntSize else bitSize in
          let cutoff := uint64 (Z.shiftl 1 (bitSize - 1)) in
          if negb neg && (un >=? cutoff) then
            (int64 (cutoff - 1), Some (rangeError fnParseInt s0))
          else if neg && (un >? cutoff) then
            (int64 (- int64 cutoff), Some (rangeError fnParseInt s0))
          else
            let n := int64 un in
            (if neg then int64 (- n) else n, None)
      end
  end.

(** The table [digits] of [itoa.go]. *)
Definition digits : string := "0123456789abcdefghijklmnopqrstuvwxyz".

(** [digits[d]]. *)
Definition digit (d : Z) : ascii :=
  match String.get (Z.to_nat d) digits with
  | Some c => c
  | None => zero
  end.

(** The general conversion loop of [formatBits], which fills its buffer
    [a [64 + 1]byte] from the right:
    [for u >= b { q := u / b; a[i] = digits[u-q*b]; u = q }] and then
    [a[i] = digits[u]]. [free] counts the bytes of the buffer still
    unwritten and [a] is the part already written; writing into a full
    buffer (an index panic in Go) is the [O] case, shown unreachable by
    [formatLoop_fits]. (For base 10 Go unrolls this loop two digits at a
    time over a table of pairs; the text produced is the same.) *)
Fixpoint formatLoop (free : nat) (u b : Z) (a : string) : string :=
  match free with
  | O => a
  | S free' =>
      if u >=? b then
        let q := u / b in
        formatLoop free' q b (String (digit (u - q * b)) a)
      else String (digit u) a
  end.

(** [formatBits(nil, u, base, neg, false)]: the digits of [u] (of [-u] when
    [neg]), with the sign in front. The sign has a byte of its own in the
    buffer, so the digits have [64] of its [65] bytes. *)
Definition formatBits (u base : Z) (neg : bool) : string :=
  let u := if neg then uint64 (- u) else u in
  let a := formatLoop 64 u base EmptyString in
  if neg then String "-" a else a.

(** [strconv.FormatInt(i, base)], for a base in 2..36 (Go panics on any
    other). The shortcut for [0 <= i < 100] returns the same text as the
    general path. *)
Definition FormatInt (i base : Z) : string :=
  formatBits (uint64 i) base (i <? 0).

End strconv.

(* ===================================================================== *)
(** ** monitors.go: NoDataTimeframe *)
(* ===================================================================== *)

(** [type NoDataTimeframe int]; Go's [int] has 64 bits here. *)
Definition NoDataTimeframe : Type := Z.

(** The conversion [NoDataTimeframe(i)] of an [int64]. *)
Definition NoDataTimeframe_of (i : Z) : NoDataTimeframe := int64 i.

(** A method with the pointer receiver [tf *NoDataTimeframe]: the cell [*tf]
    goes in, the cell and the returned value come out. *)
Definition Recv (A : Type) : Type := NoDataTimeframe -> NoDataTimeframe * A.

Definition ret {A : Type} (a : A) : Recv A := fun tf => (tf, a).

(** [*tf = v]. *)
Definition assign (v : NoDataTimeframe) : Recv unit := fun _ => (v, tt).

Definition bind {A B : Type} (m : Recv A) (k : A -> Recv B) : Recv B :=
  fun tf => let '(tf', a) := m tf in k a tf'.

Notation "m ;; k" := (bind m (fun _ => k)) (at level 61, right associativity).

(** [string(data)]. *)
Definition string_of_bytes (data : list byte) : string := string_of_list_byte data.

(** [func (tf *NoDataTimeframe) UnmarshalJSON(data []byte) error]. The
    returned error is [None] for Go's [nil]. *)
Definition UnmarshalJSON (data : list byte) : Recv (option strconv.NumError) :=
  let s := string_of_bytes data in
  if (s =? "false")%string || (s =? "null")%string then
    assign 0 ;;
    ret None
  else
    let '(i, err) := strconv.ParseInt s 10 32 in
    match err with
    | Some e => ret (Some e)
    | None =>
        assign (NoDataTimeframe_of i) ;;
        ret None
    end.

(** The bytes of a token given as text. *)
Definition token (s : string) : list byte := list_byte_of_string s.

(** The JSON encoding of a [NoDataTimeframe]: the type has no encoding hook
    of its own, so [encoding/json] writes it as an integer, with
    [strconv.AppendInt(b, v.Int(), 10)]. *)
Definition Marshal (tf : NoDataTimeframe) : list byte :=
  token (strconv.FormatInt tf 10).

(* ===================================================================== *)
(** ** The shapes of a token, in the words of the specification *)
(* ===================================================================== *)

Definition is_digit (c : ascii) : bool := (48 <=? code c) && (code c <=? 57).

Fixpoint all_digits (s : string) : bool :=
  match s with
  | EmptyString => true
  | String c rest => is_digit c && all_digits rest
  end.

(** A sequence of at least one ASCII digit. *)
Definition digit_seq (s : string) : bool :=
  match s with
  | EmptyString => false
  | _ => all_digits s
  end.

(** The number a digit sequence writes in base 10, continuing from [n]. *)
Fixpoint digits_value (n : Z) (s : string) : Z :=
  match s with
  | EmptyString => n
  | String c rest => digits_value (10 * n + (code c - 48)) rest
  end.

(** A sequence of ASCII digits optionally prefixed with [-]. *)
Definition minus_digits (s : string) : bool :=
  match s with
  | EmptyString => false
  | String c rest => if (c =? "-")%char then digit_seq rest else digit_seq s
  end.

(** A signed base-10 integer: a digit sequence with an optional sign, [+]
    or [-], in front. *)
Definition int_literal (s : string) : bool :=
  match s with
  | EmptyString => false
  | String c rest =>
      if (c =? "+")%char || (c =? "-")%char then digit_seq rest else digit_seq s
  end.

(** The integer a signed base-10 integer denotes. *)
Definition literal_value (s : string) : Z :=
  match s with
  | EmptyString => 0
  | String c rest =>
      if (c =? "+")%char then digits_value 0 rest
      else if (c =? "-")%char then - digits_value 0 rest
      else digits_value 0 s
  end.

(** The 32-bit signed range. *)
Definition in_int32 (v : Z) : bool := (- 2 ^ 31 <=? v) && (v <=? 2 ^ 31 - 1).

(** A parseable base-10 signed integer (32-bit range). *)
Definition parseable_int32 (s : string) : bool :=
  int_literal s && in_int32 (literal_value s).

(** The tokens the decoder accepts: [false], [null], or a parseable base-10
    signed integer of the 32-bit range. *)
Definition accepted (s : string) : bool :=
  (s =? "false")%string || (s =? "null")%string || parseable_int32 s.

(** A token wrapped in double quotes. *)
Definition dquote : ascii := Ascii false true false false false true false false.

Definition quoted (s : string) : string := String dquote (s ++ String dquote EmptyString).

(* ===================================================================== *)
(** ** monitors.go: the records *)
(* ===================================================================== *)

(** A pointer field is an [option] ([None] is [nil]); a slice or a map that
    may be [nil] is an [option] of a list; [json.Number] is a string. *)
Record ThresholdCount : Type := {
  Ok : option string;
  Critical : option string;
  Warning : option string;
  CriticalRecovery : option string;
  WarningRecovery : option string
}.

Record Options : Type := {
  Options_NoDataTimeframe : NoDataTimeframe;
  NotifyAudit : option bool;
  NotifyNoData : option bool;
  RenotifyInterval : option Z;
  NewHostDelay : option Z;
  EvaluationDelay : option Z;
  Silenced : option (list (string * Z));
  TimeoutH : option Z;
  EscalationMessage : option string;
  Thresholds : option ThresholdCount;
  IncludeTags : option bool;
  RequireFullWindow : option bool;
  Locked : option bool
}.

Record Creator : Type := {
  Email : option string;
  Handle : option string;
  Creator_ID : option Z;
  Creator_Name : option string
}.

Record Monitor : Type := {
  Monitor_Creator : option Creator;
  ID : option Z;
  Type_ : option string;
  Query : option string;
  Name : option string;
  Message : option string;
  Tags : option (list string);
  Monitor_Options : option Options
}.

(** [var out Monitor]: the zero value. *)
Definition zeroMonitor : Monitor :=
  {| Monitor_Creator := None; ID := None; Type_ := None; Query := None;
     Name := None; Message := None; Tags := None; Monitor_Options := None |}.

(* ===================================================================== *)
(** ** monitors.go: the client methods *)
(* ===================================================================== *)

(** The argument [reqbody interface{}] of [doJSONRequest]: the untyped [nil],
    or a [*Monitor] (which may itself be a nil pointer). *)
Inductive ReqBody : Type :=
| NoBody
| MonitorBody (monitor : option Monitor).

(** The argument [out interface{}] of [doJSONRequest]: the untyped [nil],
    [&out] for a [Monitor], or [&out.Monitors] for a [[]Monitor]. *)
Inductive OutKind : Type :=
| NoOut
| MonitorOut
| MonitorsOut.

(** What [out] points to. *)
Definition out_ty (k : OutKind) : Type :=
  match k with
  | NoOut => unit
  | MonitorOut => Monitor
  | MonitorsOut => option (list Monitor)
  end.

(** What the methods take from outside this file: the transport
    [client.doJSONRequest] (declared in another file of the package), which
    acts on the state [World] of the connection and the remote service and
    may write through [out]; Go's [error] values; and [url.ParseQuery] with
    [url.Values.Encode]. *)
Class Transport : Type := {
  World : Type;
  error : Type;
  Values : Type;
  ParseQuery : string -> Values * option error;
  Encode : Values -> string;
  doJSONRequest :
    string -> string -> ReqBody -> forall k : OutKind, out_ty k ->
    World -> World * out_ty k * option error
}.

(** [fmt.Sprintf] with one [%d] verb at the end of the format. *)
Definition Sprintf_d (prefix : string) (n : Z) : string :=
  prefix ++ strconv.FormatInt n 10.

(** [strings.Join]. *)
Definition Join (elems : list string) (sep : string) : string :=
  String.concat sep elems.

Section Client.

Context {T : Transport}.

(** A method of [*Client] that returns a value of type [A]. *)
Definition Call (A : Type) : Type := World -> World * A.

Definition CreateMonitor (monitor : option Monitor) : Call (option Monitor * option error) :=
  fun w =>
    let '(w', out, err) :=
      doJSONRequest "POST" "/v1/monitor" (MonitorBody monitor) MonitorOut zeroMonitor w in
    match err with
    | Some e => (w', (None, Some e))
    | None => (w', (Some out, None))
    end.


Definition GetMonitor (id : Z) : Call (option Monitor * option error) :=
  fun w =>
    let '(w', out, err) :=
      doJSONRequest "GET" (Sprintf_d "/v1/monitor/" id) NoBody MonitorOut zeroMonitor w in
    match err with
    | Some e => (w', (None, Some e))
    | None => (w', (Some out, None))
    end.

Definition GetMonitorsByName (name : string) : Call (option (list Monitor) * option error) :=
  fun w =>
    let '(query, err) := ParseQuery ("name=" ++ name) in
    match err with
    | Some e => (w, (None, Some e))
    | None =>
        let '(w', out, err) :=
          doJSONRequest "GET" ("/v1/monitor?" ++ Encode query) NoBody MonitorsOut None w in
        match err with
        | Some e => (w', (None, Some e))
        | None => (w', (out, None))
        end
    end.

Definition GetMonitorsByTags (tags : list string) : Call (option (list Monitor) * option error) :=
  fun w =>
    let '(query, err) := ParseQuery ("monitor_tags=" ++ Join tags ",") in
    match err with
    | Some e => (w, (None, Some e))
    | None =>
        let '(w', out, err) :=
          doJSONRequest "GET" ("/v1/monitor?" ++ Encode query) NoBody MonitorsOut None w in
        match err with
        | Some e => (w', (None, Some e))
        | None => (w', (out, None))
        end
    end.

Definition DeleteMonitor (id : Z) : Call (option error) :=
  fun w =>
    let '(w', _, err) := doJSONRequest "DELETE" (Sprintf_d "/v1/monitor/" id) NoBody NoOut tt w in
    (w', err).

Definition GetMonitors : Call (option (list Monitor) * option error) :=
  fun w =>
    let '(w', out, err) := doJSONRequest "GET" "/v1/monitor" NoBody MonitorsOut None w in
    match err with
    | Some e => (w', (None, Some e))
    | None => (w', (out, None))
    end.

Definition MuteMonitors : Call (option error) :=
  fun w =>
    let '(w', _, err) := doJSONRequest "POST" "/v1/monitor/mute_all" NoBody NoOut tt w in
    (w', err).

Definition UnmuteMonitors : Call (option error) :=
  fun w =>
    let '(w', _, err) := doJSONRequest "POST" "/v1/monitor/unmute_all" NoBody NoOut tt w in
    (w', err).

(** [fmt.Sprintf("/v1/monitor/%d/mute", id)]. *)
Definition MuteMonitor (id : Z) : Call (option error) :=
  fun w =>
    let '(w', _, err) :=
      doJSONRequest "POST" (Sprintf_d "/v1/monitor/" id ++ "/mute") NoBody NoOut tt w in
    (w', err).

Definition UnmuteMonitor (id : Z) : Call (option error) :=
  fun w =>
    let '(w', _, err) :=
      doJSONRequest "POST" (Sprintf_d "/v1/monitor/" id ++ "/unmute") NoBody NoOut tt w in
    (w', err).

End Client.


(** ** What it means for a method to pass the transport's answer on *)

Section Propagation.

Context {T : Transport}.










End Propagation.

(** The two bounds of [ParseUint] at the decoder's call, base 10 and
    bitSize 32: [maxUint64/10 + 1] and [1<<32 - 1]. *)
Definition cutoff10 : Z := strconv.maxUint64 / 10 + 1.
Definition maxVal32 : Z := 2 ^ 32 - 1.

(** The part of [ParseInt] that follows the call of [ParseUint], at
    bitSize 32, as a function of the sign seen, the whole input [s0] and the
    result of [ParseUint]. *)
Definition afterParseUint32 (neg : bool) (s0 : string)
    (r : Z * option strconv.NumError) : Z * option strconv.NumError :=
  let '(un, err) := r in
  match strconv.notRange err with
  | Some cause => (0, Some (strconv.mkNumError strconv.fnParseInt s0 cause))
  | None =>
      if negb neg && (un >=? 2 ^ 31) then
        (2 ^ 31 - 1, Some (strconv.rangeError strconv.fnParseInt s0))
      else if neg && (un >? 2 ^ 31) then
        (- 2 ^ 31, Some (strconv.rangeError strconv.fnParseInt s0))
      else (if neg then int64 (- int64 un) else int64 un, None)
  end.

(* ===================================================================== *)
(** ** Observing the requests a method sends *)
(* ===================================================================== *)

(** The arguments of one call of [doJSONRequest]. *)
Record Request : Type := mkRequest {
  req_method : string;
  req_api : string;
  req_body : ReqBody;
  req_out : OutKind
}.

(** A transport that keeps the list of the requests it was given, oldest
    first, and answers each one with [reply], which sees the requests made
    so far, the request and the present content of [out]. *)
Definition recorder {E V : Type} (pq : string -> V * option E) (enc : V -> string)
    (reply : list Request -> Request -> forall k : OutKind, out_ty k -> out_ty k * option E)
    : Transport := {|
  World := list Request;
  error := E;
  Values := V;
  ParseQuery := pq;
  Encode := enc;
  doJSONRequest := fun method api body k out w =>
    let r := mkRequest method api body k in
    let '(out', err) := reply w r k out in
    ((w ++ r :: nil)%list, out', err)
|}.

(** The paths of the requests in a log. *)
Definition paths (w : list Request) : list string := map req_api w.

Section Stored.

Context {T : Transport}.

(** From [w], one call of the transport whose [out] points to a fresh
    [out0] ends in [w'] with [out'] stored there and the error [err]. *)
Definition one_call_out (k : OutKind) (out0 : out_ty k) (w w' : World)
    (out' : out_ty k) (err : option error) : Prop :=
  exists method api body, doJSONRequest method api body k out0 w = (w', out', err).

(** What a method returns beside the error: nothing on an error, [stored]
    otherwise. *)
Definition unless_error {A : Type} (err : option error) (stored : option A) : option A :=
  match err with
  | Some _ => None
  | None => stored
  end.

(** A method returning a pointer: the transport decodes into a zero
    [Monitor], and a pointer to it is returned unless the call failed. *)
Definition returns_stored_monitor (run : Call (option Monitor * option error)) : Prop :=
  forall w, exists w' out' err,
    one_call_out MonitorOut zeroMonitor w w' out' err /\
    run w = (w', (unless_error err (Some out'), err)).

(** A method returning a slice: the transport decodes into a nil slice,
    which is returned as the transport left it unless the call failed. *)
Definition returns_stored_monitors
    (run : Call (option (list Monitor) * option error)) : Prop :=
  forall w, exists w' out' err,
    one_call_out MonitorsOut None w w' out' err /\
    run w = (w', (unless_error err out', err)).

End Stored.

(** The text of a token after its sign, if it has one. *)
Definition unsigned_part (s : string) : string :=
  match s with
  | EmptyString => EmptyString
  | String c rest => if (c =? "+")%char || (c =? "-")%char then rest else s
  end.

(** The first byte of a text is an ASCII digit. *)
Definition starts_with_digit (s : string) : bool :=
  match s with
  | EmptyString => false
  | String c _ => is_digit c
  end.

(** The recording transport that answers every request with success and
    stores nothing. *)
Definition silentRecorder : Transport :=
  recorder (E := string) (V := string) (fun q => (q, None)) (fun v => v)
    (fun _ _ _ out => (out, None)).

(** The paths a method requests, run by a recording transport from an
    empty log. *)
Definition sent {A : Type} (run : list Request -> list Request * A) : list string :=
  paths (fst (run nil)).

(** The range of Go's [int] and [int64]. *)
Definition in_int64 (v : Z) : bool := (- 2 ^ 63 <=? v) && (v <? 2 ^ 63).

(* ===================================================================== *)
(** ** Facts about the fixed-width conversions and the characters *)
(* ===================================================================== *)

Lemma uint64_small (x : Z) : 0 <= x < 2 ^ 64 -> uint64 x = x.
Proof. intros H. unfold uint64. apply Z.mod_small. exact H. Qed.

Lemma int64_small (x : Z) : - 2 ^ 63 <= x < 2 ^ 63 -> int64 x = x.
Proof.
  intros H. unfold int64.
  destruct (Z.neg_nonneg_cases x) as [Hneg | Hpos].
  - replace (x mod 2 ^ 64) with (x + 2 ^ 64).
    + destruct (Z.ltb_spec (x + 2 ^ 64) (2 ^ 63)); lia.
    + apply Z.mod_unique with (q := -1); lia.
  - rewrite Z.mod_small by lia.
    destruct (Z.ltb_spec x (2 ^ 63)); lia.
Qed.

Lemma code_range (c : ascii) : 0 <= code c < 256.
Proof.
  unfold code. pose proof (N_ascii_bounded c) as H. lia.
Qed.

Lemma code_inj (c d : ascii) : code c = code d -> c = d.
Proof.
  unfold code. intros H. apply N2Z.inj in H.
  rewrite <- (ascii_N_embedding c), <- (ascii_N_embedding d), H. reflexivity.
Qed.

Lemma code_eqb (c d : ascii) : (code c =? code d) = (c =? d)%char.
Proof.
  destruct (Ascii.eqb_spec c d) as [-> | Hne].
  - apply Z.eqb_refl.
  - apply Z.eqb_neq. intros H. apply Hne, code_inj, H.
Qed.

Lemma is_digit_bounds (c : ascii) : is_digit c = true -> 0 <= code c - 48 <= 9.
Proof.
  unfold is_digit. intros H. apply andb_prop in H. destruct H as [H1 H2].
  apply Z.leb_le in H1. apply Z.leb_le in H2. lia.
Qed.

(* ===================================================================== *)
(** ** strconv.ParseUint at base 10 and 32 bits *)
(* ===================================================================== *)

Section ParseUintFacts.

Import strconv.

Lemma digitval_digit (c : ascii) :
  is_digit c = true -> digitval (code c) = Some (code c - 48).
Proof.
  intros H. pose proof (is_digit_bounds c H) as Hb.
  unfold digitval. unfold is_digit in H. rewrite H.
  unfold byte8. rewrite Z.mod_small by lia. reflexivity.
Qed.

Lemma digitval_other (c : ascii) (d : Z) :
  is_digit c = false -> digitval (code c) = Some d -> 10 <= d < 36.
Proof.
  intros H. unfold digitval. unfold is_digit in H. rewrite H.
  destruct ((97 <=? lower (code c)) && (lower (code c) <=? 122)) eqn:E;
    [| discriminate].
  apply andb_prop in E. destruct E as [E1 E2].
  apply Z.leb_le in E1. apply Z.leb_le in E2.
  intros Hd. injection Hd as <-.
  unfold byte8. rewrite Z.mod_small by lia. lia.
Qed.

Lemma digits_value_ge (s : string) :
  forall n, all_digits s = true -> 0 <= n -> n <= digits_value n s.
Proof.
  induction s as [| c rest IH]; intros n Hs Hn; cbn [all_digits digits_value] in *.
  - lia.
  - apply andb_prop in Hs. destruct Hs as [Hc Hrest].
    pose proof (is_digit_bounds c Hc).
    specialize (IH (10 * n + (code c - 48)) Hrest). lia.
Qed.

(** On a digit sequence the loop computes the number written, or stops
    with [ErrRange] as soon as it no longer fits 32 bits. *)
Lemma parseLoop_digits (s : string) :
  forall n, all_digits s = true -> 0 <= n <= maxVal32 ->
    parseLoop 10 cutoff10 maxVal32 s n =
    if digits_value n s <=? maxVal32 then (digits_value n s, None)
    else (maxVal32, Some ErrRange).
Proof.
  induction s as [| c rest IH]; intros n Hs Hn.
  - simpl. destruct (Z.leb_spec n maxVal32); [reflexivity | lia].
  - simpl in Hs. apply andb_prop in Hs. destruct Hs as [Hc Hrest].
    pose proof (is_digit_bounds c Hc) as Hd.
    cbn [parseLoop digits_value]. rewrite (digitval_digit c Hc).
    assert (Hmax : maxVal32 = 4294967295) by reflexivity.
    assert (Hcut : cutoff10 = 1844674407370955162) by reflexivity.
    assert (Hb : byte8 10 = 10) by reflexivity.
    rewrite Hb.
    destruct (Z.geb_spec (code c - 48) 10); [lia |].
    destruct (Z.geb_spec n cutoff10); [lia |].
    rewrite (uint64_small (n * 10)) by lia.
    rewrite (uint64_small (n * 10 + (code c - 48))) by lia.
    destruct (Z.ltb_spec (n * 10 + (code c - 48)) (n * 10)); [lia |].
    replace (10 * n + (code c - 48)) with (n * 10 + (code c - 48)) by lia.
    destruct (Z.gtb_spec (n * 10 + (code c - 48)) maxVal32) as [Hgt | Hle]; cbn [orb].
    + pose proof (digits_value_ge rest (n * 10 + (code c - 48)) Hrest).
      destruct (Z.leb_spec (digits_value (n * 10 + (code c - 48)) rest) maxVal32);
        [lia | reflexivity].
    + apply IH; [exact Hrest | lia].
Qed.

(** On anything else the loop stops with an error: [ErrSyntax] at the first
    byte that is no digit, unless [ErrRange] came first. *)
Lemma parseLoop_other (s : string) :
  forall n, all_digits s = false -> 0 <= n <= maxVal32 ->
    parseLoop 10 cutoff10 maxVal32 s n = (0, Some ErrSyntax) \/
    parseLoop 10 cutoff10 maxVal32 s n = (maxVal32, Some ErrRange).
Proof.
  induction s as [| c rest IH]; intros n Hs Hn.
  - discriminate.
  - cbn [parseLoop]. simpl in Hs.
    destruct (is_digit c) eqn:Hc.
    + simpl in Hs. rewrite (digitval_digit c Hc).
      pose proof (is_digit_bounds c Hc) as Hd.
      assert (Hmax : maxVal32 = 4294967295) by reflexivity.
      destruct (code c - 48 >=? byte8 10); [left; reflexivity |].
      destruct (n >=? cutoff10); [right; reflexivity |].
      rewrite (uint64_small (n * 10)) by lia.
      rewrite (uint64_small (n * 10 + (code c - 48))) by lia.
      destruct (Z.ltb_spec (n * 10 + (code c - 48)) (n * 10)); [lia |].
      destruct (Z.gtb_spec (n * 10 + (code c - 48)) maxVal32); cbn [orb].
      * right; reflexivity.
      * apply IH; [exact Hs | lia].
    + destruct (digitval (code c)) as [d |] eqn:Hd; [| left; reflexivity].
      pose proof (digitval_other c d Hc Hd).
      assert (Hb : byte8 10 = 10) by reflexivity. rewrite Hb.
      destruct (Z.geb_spec d 10); [left; reflexivity | lia].
Qed.

Lemma ParseUint_10_32 (c : ascii) (rest : string) :
  ParseUint (String c rest) 10 32 =
  match parseLoop 10 cutoff10 maxVal32 (String c rest) 0 with
  | (n, Some e) => (n, Some (mkNumError fnParseUint (String c rest) e))
  | (n, None) => (n, None)
  end.
Proof. reflexivity. Qed.

(** [ParseUint] on a digit sequence that fits 32 bits. *)
Lemma ParseUint_fits (s : string) :
  digit_seq s = true -> digits_value 0 s <= maxVal32 ->
  ParseUint s 10 32 = (digits_value 0 s, None).
Proof.
  destruct s as [| c rest]; [discriminate |].
  intros Hs Hv. rewrite ParseUint_10_32.
  rewrite parseLoop_digits by (try exact Hs; unfold maxVal32; lia).
  destruct (Z.leb_spec (digits_value 0 (String c rest)) maxVal32); [reflexivity | lia].
Qed.

(** [ParseUint] on a digit sequence that does not. *)
Lemma ParseUint_overflow (s : string) :
  digit_seq s = true -> maxVal32 < digits_value 0 s ->
  ParseUint s 10 32 = (maxVal32, Some (rangeError fnParseUint s)).
Proof.
  destruct s as [| c rest]; [discriminate |].
  intros Hs Hv. rewrite ParseUint_10_32.
  rewrite parseLoop_digits by (try exact Hs; unfold maxVal32; lia).
  destruct (Z.leb_spec (digits_value 0 (String c rest)) maxVal32); [lia | reflexivity].
Qed.

(** [ParseUint] on a text that is no digit sequence. *)
Lemma ParseUint_malformed (s : string) :
  digit_seq s = false ->
  ParseUint s 10 32 = (0, Some (syntaxError fnParseUint s)) \/
  ParseUint s 10 32 = (maxVal32, Some (rangeError fnParseUint s)).
Proof.
  destruct s as [| c rest]; [left; reflexivity |].
  intros Hs. rewrite ParseUint_10_32.
  destruct (parseLoop_other (String c rest) 0 Hs) as [-> | ->];
    [unfold maxVal32; lia | left; reflexivity | right; reflexivity].
Qed.

End ParseUintFacts.

(* ===================================================================== *)
(** ** strconv.ParseInt at base 10 and 32 bits *)
(* ===================================================================== *)

Section ParseIntFacts.

Import strconv.

Lemma ParseInt_10_32 (c : ascii) (rest : string) :
  ParseInt (String c rest) 10 32 =
  if (c =? "+")%char then afterParseUint32 false (String c rest) (ParseUint rest 10 32)
  else if (c =? "-")%char then afterParseUint32 true (String c rest) (ParseUint rest 10 32)
  else afterParseUint32 false (String c rest) (ParseUint (String c rest) 10 32).
Proof.
  rewrite <- (code_eqb c "+"), <- (code_eqb c "-").
  change (code "+") with 43. change (code "-") with 45.
  unfold ParseInt, afterParseUint32.
  destruct (code c =? 43); [| destruct (code c =? 45)];
    match goal with
    | |- context [ParseUint ?s 10 32] => destruct (ParseUint s 10 32) as [un err]
    end; reflexivity.
Qed.

Lemma digit_seq_all (s : string) : digit_seq s = true -> all_digits s = true.
Proof. destruct s; [discriminate | trivial]. Qed.

Lemma digit_seq_value (s : string) : digit_seq s = true -> 0 <= digits_value 0 s.
Proof. intros H. apply digits_value_ge; [apply digit_seq_all, H | lia]. Qed.

(** After [ParseUint], on a digit sequence: the signed value when it is in
    the 32-bit range, [ErrRange] with the whole input otherwise. *)
Lemma afterParseUint32_digits (neg : bool) (s0 s : string) :
  digit_seq s = true ->
  let v := if neg then - digits_value 0 s else digits_value 0 s in
  afterParseUint32 neg s0 (ParseUint s 10 32) = (v, None) /\ in_int32 v = true
  \/ (exists w, afterParseUint32 neg s0 (ParseUint s 10 32)
                = (w, Some (rangeError fnParseInt s0)))
     /\ in_int32 v = false.
Proof.
  intros Hs v. pose proof (digit_seq_value s Hs) as Hpos.
  assert (Hmax : maxVal32 = 4294967295) by reflexivity.
  unfold in_int32.
  destruct (Z.le_gt_cases (digits_value 0 s) maxVal32) as [Hfit | Hover].
  - rewrite (ParseUint_fits s Hs Hfit). unfold afterParseUint32. cbn [notRange].
    destruct neg; cbn [negb andb]; subst v.
    + destruct (Z.gtb_spec (digits_value 0 s) (2 ^ 31)).
      * right. split; [eexists; reflexivity |].
        apply andb_false_iff. left. apply Z.leb_gt. lia.
      * left. rewrite (int64_small (digits_value 0 s)) by lia.
        rewrite int64_small by lia. split; [reflexivity |].
        apply andb_true_iff. split; apply Z.leb_le; lia.
    + destruct (Z.geb_spec (digits_value 0 s) (2 ^ 31)).
      * right. split; [eexists; reflexivity |].
        apply andb_false_iff. right. apply Z.leb_gt. lia.
      * left. rewrite int64_small by lia. split; [reflexivity |].
        apply andb_true_iff. split; apply Z.leb_le; lia.
  - rewrite (ParseUint_overflow s Hs Hover). unfold afterParseUint32.
    cbn [notRange rangeError Cause Err_eqb].
    right. destruct neg; cbn [negb andb]; subst v.
    + destruct (Z.gtb_spec maxVal32 (2 ^ 31)); [| lia].
      split; [eexists; reflexivity |].
      apply andb_false_iff. left. apply Z.leb_gt. lia.
    + destruct (Z.geb_spec maxVal32 (2 ^ 31)); [| lia].
      split; [eexists; reflexivity |].
      apply andb_false_iff. right. apply Z.leb_gt. lia.
Qed.

(** After [ParseUint], on anything else: an error with the whole input. *)
Lemma afterParseUint32_malformed (neg : bool) (s0 s : string) :
  digit_seq s = false ->
  exists w k, afterParseUint32 neg s0 (ParseUint s 10 32)
              = (w, Some (mkNumError fnParseInt s0 k))
              /\ (k = ErrSyntax \/ k = ErrRange).
Proof.
  intros Hs.
  assert (Hmax : maxVal32 = 4294967295) by reflexivity.
  destruct (ParseUint_malformed s Hs) as [-> | ->]; unfold afterParseUint32.
  - cbn [notRange syntaxError Cause Err_eqb].
    exists 0, ErrSyntax. split; [reflexivity | left; reflexivity].
  - cbn [notRange rangeError Cause Err_eqb].
    destruct neg; cbn [negb andb].
    + destruct (Z.gtb_spec maxVal32 (2 ^ 31)); [| lia].
      eexists; exists ErrRange. split; [reflexivity | right; reflexivity].
    + destruct (Z.geb_spec maxVal32 (2 ^ 31)); [| lia].
      eexists; exists ErrRange. split; [reflexivity | right; reflexivity].
Qed.

(** [ParseInt] on a signed base-10 integer of the 32-bit range. *)
Lemma ParseInt_parseable (s : string) :
  parseable_int32 s = true -> ParseInt s 10 32 = (literal_value s, None).
Proof.
  unfold parseable_int32. intros H. apply andb_prop in H. destruct H as [Hlit Hrange].
  destruct s as [| c rest]; [discriminate |].
  rewrite ParseInt_10_32. unfold int_literal in Hlit. unfold literal_value in *.
  destruct (c =? "+")%char; [| destruct (c =? "-")%char]; cbn [orb] in Hlit.
  - destruct (afterParseUint32_digits false (String c rest) rest Hlit) as [[E _] | [_ E]];
      [exact E | cbv zeta in E; congruence].
  - destruct (afterParseUint32_digits true (String c rest) rest Hlit) as [[E _] | [_ E]];
      [exact E | cbv zeta in E; congruence].
  - destruct (afterParseUint32_digits false (String c rest) (String c rest) Hlit)
      as [[E _] | [_ E]]; [exact E | cbv zeta in E; congruence].
Qed.

(** [ParseInt] on any other text: an error that names [ParseInt] and
    carries the text. *)
Lemma ParseInt_unparseable (s : string) :
  parseable_int32 s = false ->
  exists w k, ParseInt s 10 32 = (w, Some (mkNumError fnParseInt s k))
              /\ (k = ErrSyntax \/ k = ErrRange)
              /\ (int_literal s = true -> k = ErrRange).
Proof.
  unfold parseable_int32. intros H.
  destruct s as [| c rest].
  { exists 0, ErrSyntax. split; [reflexivity |]. split; [left; reflexivity | discriminate]. }
  rewrite ParseInt_10_32. unfold int_literal, literal_value in *.
  assert (Hcase : forall (neg : bool) (s' : string),
    (digit_seq s' && in_int32 (if neg then - digits_value 0 s' else digits_value 0 s')
     = false) ->
    exists w k, afterParseUint32 neg (String c rest) (ParseUint s' 10 32)
                = (w, Some (mkNumError fnParseInt (String c rest) k))
                /\ (k = ErrSyntax \/ k = ErrRange)
                /\ (digit_seq s' = true -> k = ErrRange)).
  { intros neg s' Hf. destruct (digit_seq s') eqn:Hs.
    - cbn [andb] in Hf.
      destruct (afterParseUint32_digits neg (String c rest) s' Hs) as [[_ E] | [[w E] _]];
        [cbv zeta in E; congruence |].
      exists w, ErrRange. split; [exact E |]. split; [right |]; reflexivity.
    - destruct (afterParseUint32_malformed neg (String c rest) s' Hs) as (w & k & E & Hk).
      exists w, k. split; [exact E |]. split; [exact Hk | discriminate]. }
  destruct (c =? "+")%char; [| destruct (c =? "-")%char]; cbn [orb] in H |- *.
  - apply (Hcase false rest H).
  - apply (Hcase true rest H).
  - apply (Hcase false (String c rest) H).
Qed.

End ParseIntFacts.

(* ===================================================================== *)
(** ** strconv.FormatInt at base 10 *)
(* ===================================================================== *)

Section FormatIntFacts.

Import strconv.

Lemma digit_code (d : Z) : 0 <= d <= 9 -> code (digit d) = 48 + d.
Proof.
  intros H.
  assert (E : d = 0 \/ d = 1 \/ d = 2 \/ d = 3 \/ d = 4 \/ d = 5 \/ d = 6 \/
              d = 7 \/ d = 8 \/ d = 9) by lia.
  repeat (destruct E as [-> | E]; [reflexivity |]). subst d. reflexivity.
Qed.

Lemma digit_is_digit (d : Z) : 0 <= d <= 9 -> is_digit (digit d) = true.
Proof.
  intros H. unfold is_digit. rewrite (digit_code d H).
  apply andb_true_iff. split; apply Z.leb_le; lia.
Qed.

Lemma pow2_S (k : nat) : 2 ^ Z.of_nat (S k) = 2 * 2 ^ Z.of_nat k.
Proof. rewrite Nat2Z.inj_succ, Z.pow_succ_r by lia. reflexivity. Qed.

(** One turn of the loop: quotient and digit of [u] at base 10. *)
Lemma step10 (u : Z) (k : nat) :
  10 <= u -> u < 2 ^ Z.of_nat (S k) ->
  0 <= u / 10 < 2 ^ Z.of_nat k /\ 0 <= u - u / 10 * 10 <= 9.
Proof.
  intros Hu Hk. rewrite pow2_S in Hk.
  pose proof (Z.div_mod u 10 ltac:(lia)) as Hdm.
  pose proof (Z.mod_pos_bound u 10 ltac:(lia)) as Hm.
  lia.
Qed.

(** The buffer is never full: more room changes nothing. *)
Lemma formatLoop_fits (free : nat) :
  forall u b a (extra : nat), 2 <= b -> 0 <= u < 2 ^ Z.of_nat (S free) ->
    formatLoop (S free + extra) u b a = formatLoop (S free) u b a.
Proof.
  induction free as [| free IH]; intros u b a extra Hb Hu.
  - change (2 ^ Z.of_nat 1) with 2 in Hu. cbn [formatLoop Nat.add].
    destruct (Z.geb_spec u b); [lia | reflexivity].
  - rewrite pow2_S in Hu.
    change (S (S free) + extra)%nat with (S (S free + extra)).
    cbn [formatLoop].
    destruct (Z.geb_spec u b) as [Hge | Hlt]; [| reflexivity].
    apply IH; [exact Hb |].
    split; [apply Z.div_pos; lia |].
    apply Z.div_lt_upper_bound; [lia |]. nia.
Qed.

(** The text written denotes [u]. *)
Lemma formatLoop_value (free : nat) :
  forall u a, 0 <= u < 2 ^ Z.of_nat free ->
    digits_value 0 (formatLoop free u 10 a) = digits_value u a.
Proof.
  induction free as [| free IH]; intros u a Hu.
  - change (2 ^ Z.of_nat 0) with 1 in Hu. replace u with 0 by lia. reflexivity.
  - cbn [formatLoop]. destruct (Z.geb_spec u 10) as [Hge | Hlt].
    + destruct (step10 u free Hge (proj2 Hu)) as [Hq Hr].
      rewrite IH by exact Hq. cbn [digits_value].
      rewrite (digit_code _ Hr). f_equal. lia.
    + cbn [digits_value]. rewrite digit_code by lia. f_equal. lia.
Qed.

(** The text written is a digit sequence. *)
Lemma formatLoop_digit_seq (free : nat) :
  forall u a, 0 <= u < 2 ^ Z.of_nat free -> all_digits a = true ->
    free <> O \/ a <> EmptyString ->
    digit_seq (formatLoop free u 10 a) = true.
Proof.
  induction free as [| free IH]; intros u a Hu Ha Hne.
  - destruct Hne as [Hne | Hne]; [congruence |].
    destruct a; [congruence | exact Ha].
  - cbn [formatLoop]. destruct (Z.geb_spec u 10) as [Hge | Hlt].
    + destruct (step10 u free Hge (proj2 Hu)) as [Hq Hr].
      apply IH; [exact Hq | | right; discriminate].
      cbn [all_digits]. rewrite (digit_is_digit _ Hr). exact Ha.
    + cbn [digit_seq all_digits]. rewrite digit_is_digit by lia. exact Ha.
Qed.

Lemma is_digit_not_sign (c : ascii) :
  is_digit c = true -> (c =? "+")%char = false /\ (c =? "-")%char = false.
Proof.
  intros H. split.
  - destruct (Ascii.eqb_spec c "+") as [-> | _]; [discriminate | reflexivity].
  - destruct (Ascii.eqb_spec c "-") as [-> | _]; [discriminate | reflexivity].
Qed.

(** A digit sequence is a signed integer with no sign, and a sequence of
    digits optionally prefixed with a minus sign. *)
Lemma digit_seq_literal (s : string) :
  digit_seq s = true ->
  int_literal s = true /\ minus_digits s = true /\ literal_value s = digits_value 0 s.
Proof.
  destruct s as [| c rest]; [discriminate |]. intros H.
  assert (Hc : is_digit c = true).
  { cbn [digit_seq all_digits] in H. apply andb_prop in H. apply H. }
  destruct (is_digit_not_sign c Hc) as [Hp Hm].
  unfold int_literal, minus_digits, literal_value. rewrite Hp, Hm. cbn [orb].
  repeat split; assumption.
Qed.

(** [FormatInt] of a number that is not negative: its digits. *)
Lemma FormatInt_nonneg (i : Z) :
  0 <= i < 2 ^ 63 ->
  digit_seq (FormatInt i 10) = true /\ digits_value 0 (FormatInt i 10) = i.
Proof.
  intros Hi. unfold FormatInt, formatBits.
  destruct (Z.ltb_spec i 0) as [Hneg | Hpos]; [lia |].
  rewrite (uint64_small i) by lia.
  assert (Hb : 0 <= i < 2 ^ Z.of_nat 64) by (change (2 ^ Z.of_nat 64) with (2 ^ 64); lia).
  split.
  - apply formatLoop_digit_seq; [exact Hb | reflexivity | left; discriminate].
  - rewrite formatLoop_value by exact Hb. reflexivity.
Qed.

(** [FormatInt] writes a signed base-10 integer that denotes its
    argument, with no sign other than a minus. *)
Lemma FormatInt_literal (i : Z) :
  - 2 ^ 63 <= i < 2 ^ 63 ->
  int_literal (FormatInt i 10) = true /\
  minus_digits (FormatInt i 10) = true /\
  literal_value (FormatInt i 10) = i.
Proof.
  intros Hi. unfold FormatInt, formatBits.
  destruct (Z.ltb_spec i 0) as [Hneg | Hpos].
  - assert (Hu : uint64 (- uint64 i) = - i).
    { unfold uint64. replace (i mod 2 ^ 64) with (i + 2 ^ 64)
        by (apply Z.mod_unique with (q := -1); lia).
      symmetry. apply Z.mod_unique with (q := -1); lia. }
    rewrite Hu.
    assert (Hb : 0 <= - i < 2 ^ Z.of_nat 64) by (change (2 ^ Z.of_nat 64) with (2 ^ 64); lia).
    unfold int_literal, minus_digits, literal_value.
    change ("-" =? "+")%char with false. change ("-" =? "-")%char with true. cbn [orb].
    rewrite formatLoop_value by exact Hb.
    rewrite formatLoop_digit_seq by (try exact Hb; try reflexivity; left; discriminate).
    cbn [digits_value]. repeat split; lia.
  - rewrite (uint64_small i) by lia.
    assert (Hb : 0 <= i < 2 ^ Z.of_nat 64) by (change (2 ^ Z.of_nat 64) with (2 ^ 64); lia).
    assert (Hs : digit_seq (formatLoop 64 i 10 EmptyString) = true).
    { apply formatLoop_digit_seq; [exact Hb | reflexivity | left; discriminate]. }
    destruct (digit_seq_literal _ Hs) as (H1 & H2 & H3).
    rewrite H3, formatLoop_value by exact Hb. repeat split; assumption.
Qed.

End FormatIntFacts.

(* ===================================================================== *)
(** ** The decoder *)
(* ===================================================================== *)

Section DecoderFacts.

Import strconv.

Lemma string_of_bytes_token (s : string) : string_of_bytes (token s) = s.
Proof. apply string_of_list_byte_of_string. Qed.

(** [UnmarshalJSON] with the receiver made explicit. *)
Lemma UnmarshalJSON_unfold (data : list byte) (tf : NoDataTimeframe) :
  UnmarshalJSON data tf =
  let s := string_of_bytes data in
  if (s =? "false")%string || (s =? "null")%string then (0, None)
  else match ParseInt s 10 32 with
       | (_, Some e) => (tf, Some e)
       | (i, None) => (NoDataTimeframe_of i, None)
       end.
Proof.
  unfold UnmarshalJSON. cbv zeta.
  destruct ((string_of_bytes data =? "false")%string
            || (string_of_bytes data =? "null")%string); [reflexivity |].
  destruct (ParseInt (string_of_bytes data) 10 32) as [i [e |]]; reflexivity.
Qed.

Lemma literal_not_keyword (s : string) :
  int_literal s = true -> (s =? "false")%string || (s =? "null")%string = false.
Proof.
  intros H.
  destruct (String.eqb_spec s "false") as [-> | _]; [discriminate |].
  destruct (String.eqb_spec s "null") as [-> | _]; [discriminate | reflexivity].
Qed.

Lemma in_int32_bounds (v : Z) : in_int32 v = true <-> - 2 ^ 31 <= v <= 2 ^ 31 - 1.
Proof.
  unfold in_int32. rewrite andb_true_iff, !Z.leb_le. reflexivity.
Qed.

(** The decoder on a parseable integer. *)
Lemma UnmarshalJSON_parseable (data : list byte) (tf : NoDataTimeframe) :
  parseable_int32 (string_of_bytes data) = true ->
  UnmarshalJSON data tf = (literal_value (string_of_bytes data), None).
Proof.
  intros H. rewrite UnmarshalJSON_unfold. cbv zeta.
  pose proof H as H'. unfold parseable_int32 in H'.
  apply andb_prop in H'. destruct H' as [Hlit Hrange].
  rewrite (literal_not_keyword _ Hlit), (ParseInt_parseable _ H).
  unfold NoDataTimeframe_of. apply in_int32_bounds in Hrange.
  rewrite int64_small by lia. reflexivity.
Qed.

(** The decoder on the text [FormatInt] writes for a 32-bit integer. *)
Lemma UnmarshalJSON_FormatInt (n : Z) (tf : NoDataTimeframe) :
  in_int32 n = true -> UnmarshalJSON (token (FormatInt n 10)) tf = (n, None).
Proof.
  intros Hn. pose proof (proj1 (in_int32_bounds n) Hn) as Hb.
  destruct (FormatInt_literal n ltac:(lia)) as (Hlit & _ & Hval).
  rewrite UnmarshalJSON_parseable; rewrite string_of_bytes_token.
  - rewrite Hval. reflexivity.
  - unfold parseable_int32. rewrite Hlit, Hval, Hn. reflexivity.
Qed.

(** Whatever the decoder stores on success is in the 32-bit range. *)
Lemma UnmarshalJSON_range (data : list byte) (tf v : NoDataTimeframe) :
  UnmarshalJSON data tf = (v, None) -> in_int32 v = true.
Proof.
  rewrite UnmarshalJSON_unfold. cbv zeta.
  destruct ((string_of_bytes data =? "false")%string
            || (string_of_bytes data =? "null")%string).
  - intros E. injection E as <-. reflexivity.
  - destruct (parseable_int32 (string_of_bytes data)) eqn:Hp.
    + rewrite (ParseInt_parseable _ Hp). intros E. injection E as <-.
      unfold parseable_int32 in Hp. apply andb_prop in Hp. destruct Hp as [_ Hr].
      apply in_int32_bounds in Hr. unfold NoDataTimeframe_of.
      rewrite int64_small by lia. apply in_int32_bounds. exact Hr.
    + destruct (ParseInt_unparseable _ Hp) as (w & k & -> & _). discriminate.
Qed.

End DecoderFacts.

(* ===================================================================== *)
(** ** The decoder: what it accepts, what it stores, what it reports *)
(* ===================================================================== *)

(** The decoder on a token it does not accept: the receiver is kept and the
    error names [ParseInt] and carries the token's text. *)
Lemma UnmarshalJSON_rejected (data : list byte) (tf : NoDataTimeframe) :
  accepted (string_of_bytes data) = false ->
  exists k, UnmarshalJSON data tf
            = (tf, Some (strconv.mkNumError strconv.fnParseInt (string_of_bytes data) k))
            /\ (k = strconv.ErrSyntax \/ k = strconv.ErrRange)
            /\ (int_literal (string_of_bytes data) = true -> k = strconv.ErrRange).
Proof.
  unfold accepted. intros H. apply orb_false_iff in H. destruct H as [Hkw Hp].
  rewrite UnmarshalJSON_unfold. cbv zeta. rewrite Hkw.
  destruct (ParseInt_unparseable _ Hp) as (w & k & -> & Hk & Hr).
  exists k. split; [reflexivity |]. split; assumption.
Qed.

(** The decoder on a token it accepts: no error. *)
Lemma UnmarshalJSON_accepted (data : list byte) (tf : NoDataTimeframe) :
  accepted (string_of_bytes data) = true ->
  exists v, UnmarshalJSON data tf = (v, None).
Proof.
  unfold accepted. intros H.
  destruct ((string_of_bytes data =? "false")%string
            || (string_of_bytes data =? "null")%string) eqn:Hkw.
  - exists 0. rewrite UnmarshalJSON_unfold. cbv zeta. rewrite Hkw. reflexivity.
  - cbn [orb] in H. eexists. apply UnmarshalJSON_parseable, H.
Qed.

(** C1. For every raw token, decoding succeeds exactly when the token is the
    literal [false], the literal [null], or a parseable base-10 signed
    integer (32-bit range); on every other token it fails with an error that
    carries the original raw text of the token. *)
Theorem C1_decode_succeeds_exactly_on_accepted (data : list byte) (tf : NoDataTimeframe) :
  let s := string_of_bytes data in
  (accepted s = true /\ snd (UnmarshalJSON data tf) = None)
  \/ (accepted s = false /\
      exists e, snd (UnmarshalJSON data tf) = Some e /\ strconv.Num e = s).
Proof.
  intros s. subst s. destruct (accepted (string_of_bytes data)) eqn:Ha.
  - left. destruct (UnmarshalJSON_accepted data tf Ha) as [v ->]. split; reflexivity.
  - right. destruct (UnmarshalJSON_rejected data tf Ha) as (k & -> & _).
    split; [reflexivity |]. eexists. split; reflexivity.
Qed.

(** The rejected tokens the specification names: the text ["abc"] (quotes
    included), the empty token and the floating-point literal [1.5]. *)
Example rejected_tokens :
  accepted (quoted "abc") = false /\ accepted EmptyString = false /\ accepted "1.5" = false /\
  UnmarshalJSON (token (quoted "abc")) 7
  = (7, Some (strconv.syntaxError "ParseInt" (quoted "abc"))) /\
  UnmarshalJSON (token EmptyString) 7
  = (7, Some (strconv.syntaxError "ParseInt" EmptyString)) /\
  UnmarshalJSON (token "1.5") 7 = (7, Some (strconv.syntaxError "ParseInt" "1.5")).
Proof. repeat split; vm_compute; reflexivity. Qed.

(** C2. On the token that is exactly the literal [false], and on the token
    that is exactly the literal [null], the decoder succeeds and the value
    stored is 0. *)
Theorem C2_false_and_null_decode_to_zero (data : list byte) (tf : NoDataTimeframe) :
  string_of_bytes data = "false" \/ string_of_bytes data = "null" ->
  UnmarshalJSON data tf = (0, None).
Proof.
  intros H. rewrite UnmarshalJSON_unfold. cbv zeta.
  destruct H as [-> | ->]; reflexivity.
Qed.

Lemma C2_witness :
  UnmarshalJSON (token "false") 7 = (0, None) /\ UnmarshalJSON (token "null") 7 = (0, None).
Proof.
  split.
  - apply (C2_false_and_null_decode_to_zero (token "false") 7). left. reflexivity.
  - apply (C2_false_and_null_decode_to_zero (token "null") 7). right. reflexivity.
Defined.

(** C3. For every integer [n] of the 32-bit signed range, decoding the
    base-10 text of [n] succeeds and stores exactly [n]. *)
Theorem C3_decode_of_decimal_text (n : Z) (tf : NoDataTimeframe) :
  - 2 ^ 31 <= n <= 2 ^ 31 - 1 ->
  UnmarshalJSON (token (strconv.FormatInt n 10)) tf = (n, None).
Proof.
  intros H. apply UnmarshalJSON_FormatInt, in_int32_bounds, H.
Qed.

Lemma C3_witness :
  UnmarshalJSON (token (strconv.FormatInt (-5) 10)) 7 = (-5, None).
Proof. apply (C3_decode_of_decimal_text (-5) 7). lia. Defined.

Example decimal_texts :
  strconv.FormatInt (-5) 10 = "-5" /\ strconv.FormatInt 0 10 = "0" /\
  strconv.FormatInt 30 10 = "30" /\ strconv.FormatInt 2147483647 10 = "2147483647" /\
  strconv.FormatInt (-2147483648) 10 = "-2147483648".
Proof. repeat split; vm_compute; reflexivity. Qed.

(** C4, as the code has it. The decoder does not strip quotes: for every
    text [s], and so for every sequence of ASCII digits optionally prefixed
    with [-], the token that is [s] wrapped in double quotes is rejected
    with a syntax error that carries the quoted token, and the receiver is
    left as it was. *)
Theorem C4_quoted_token_is_rejected (s : string) (tf : NoDataTimeframe) :
  UnmarshalJSON (token (quoted s)) tf
  = (tf, Some (strconv.syntaxError strconv.fnParseInt (quoted s))).
Proof.
  rewrite UnmarshalJSON_unfold, string_of_bytes_token. cbv zeta.
  unfold quoted.
  change ((String dquote (s ++ String dquote EmptyString) =? "false")%string) with false.
  change ((String dquote (s ++ String dquote EmptyString) =? "null")%string) with false.
  cbn [orb]. rewrite ParseInt_10_32.
  change (dquote =? "+")%char with false. change (dquote =? "-")%char with false.
  rewrite ParseUint_10_32. reflexivity.
Qed.

(** C4 fails as stated: the digits [30] are a sequence of ASCII digits, the
    unquoted token decodes to 30, the quoted one is an error. *)
Lemma C4_counterexample :
  minus_digits "30" = true /\
  UnmarshalJSON (token "30") 7 = (30, None) /\
  UnmarshalJSON (token (quoted "30")) 7
  = (7, Some (strconv.syntaxError "ParseInt" (quoted "30"))) /\
  UnmarshalJSON (token (quoted "30")) 7 <> UnmarshalJSON (token "30") 7.
Proof.
  repeat split; try (vm_compute; reflexivity).
  vm_compute. discriminate.
Qed.

(** C5, as the code has it. The decoder validates nothing but the 32-bit
    signed range: every integer literal whose value is in that range,
    whatever its sign and magnitude there, decodes to its value unchanged;
    an integer literal whose value is outside it is rejected with a range
    error that carries the token, and the receiver is left as it was. *)
Theorem C5_range_is_the_only_validation (data : list byte) (tf : NoDataTimeframe) :
  let s := string_of_bytes data in
  int_literal s = true ->
  (in_int32 (literal_value s) = true /\ UnmarshalJSON data tf = (literal_value s, None))
  \/ (in_int32 (literal_value s) = false /\
      UnmarshalJSON data tf = (tf, Some (strconv.rangeError strconv.fnParseInt s))).
Proof.
  intros s Hlit. subst s. destruct (in_int32 (literal_value (string_of_bytes data))) eqn:Hr.
  - left. split; [reflexivity |]. apply UnmarshalJSON_parseable.
    unfold parseable_int32. rewrite Hlit, Hr. reflexivity.
  - right. split; [reflexivity |].
    assert (Ha : accepted (string_of_bytes data) = false).
    { unfold accepted, parseable_int32.
      rewrite (literal_not_keyword _ Hlit), Hlit, Hr. reflexivity. }
    destruct (UnmarshalJSON_rejected data tf Ha) as (k & -> & _ & Hk).
    rewrite (Hk Hlit). reflexivity.
Qed.

Lemma C5_witness :
  (in_int32 (-2147483648) = true /\
   UnmarshalJSON (token "-2147483648") 7 = (-2147483648, None))
  \/ (in_int32 (-2147483648) = false /\
      UnmarshalJSON (token "-2147483648") 7
      = (7, Some (strconv.rangeError "ParseInt" "-2147483648"))).
Proof.
  apply (C5_range_is_the_only_validation (token "-2147483648") 7). reflexivity.
Defined.

(** C5 fails as stated: [2147483648] is an integer literal, one above the
    32-bit signed range, and decoding it is a range error, not 2147483648. *)
Lemma C5_counterexample :
  int_literal "2147483648" = true /\
  UnmarshalJSON (token "2147483648") 7
  = (7, Some (strconv.rangeError "ParseInt" "2147483648")) /\
  UnmarshalJSON (token "2147483648") 7 <> (2147483648, None).
Proof.
  repeat split; try (vm_compute; reflexivity).
  vm_compute. discriminate.
Qed.

(** C6. Round trip: for every value [v] a decode has stored with success,
    encoding [v] gives a plain integer token, and decoding that token
    gives [v] back. *)
Theorem C6_decode_encode_decode (data : list byte) (tf tf' v : NoDataTimeframe) :
  UnmarshalJSON data tf = (v, None) ->
  minus_digits (string_of_bytes (Marshal v)) = true /\
  UnmarshalJSON (Marshal v) tf' = (v, None).
Proof.
  intros H. apply UnmarshalJSON_range in H.
  pose proof (proj1 (in_int32_bounds v) H) as Hb.
  unfold Marshal. rewrite string_of_bytes_token. split.
  - apply (FormatInt_literal v). lia.
  - apply UnmarshalJSON_FormatInt, H.
Qed.

Lemma C6_witness :
  minus_digits (string_of_bytes (Marshal (-5))) = true /\
  UnmarshalJSON (Marshal (-5)) 9 = (-5, None).
Proof.
  apply (C6_decode_encode_decode (token "-5") 7 9 (-5)). vm_compute. reflexivity.
Defined.

(** C7. When the decoder returns an error, the value the receiver held
    before the call is still there. *)
Theorem C7_receiver_kept_on_error (data : list byte) (tf : NoDataTimeframe)
    (e : strconv.NumError) :
  snd (UnmarshalJSON data tf) = Some e -> fst (UnmarshalJSON data tf) = tf.
Proof.
  intros H. destruct (accepted (string_of_bytes data)) eqn:Ha.
  - destruct (UnmarshalJSON_accepted data tf Ha) as [v Hv].
    rewrite Hv in H. discriminate.
  - destruct (UnmarshalJSON_rejected data tf Ha) as (k & -> & _). reflexivity.
Qed.

Lemma C7_witness : fst (UnmarshalJSON (token "1.5") 7) = 7.
Proof.
  apply (C7_receiver_kept_on_error (token "1.5") 7
           (strconv.syntaxError "ParseInt" "1.5")).
  vm_compute. reflexivity.
Defined.

(** C8. The decoder is a function of the token's bytes alone: two calls on
    the same bytes, whatever the receivers held, end with the same stored
    integer and no error, or with the same error and each receiver as it
    was. *)
Theorem C8_result_depends_on_bytes_only (data : list byte) (tf1 tf2 : NoDataTimeframe) :
  (exists v, UnmarshalJSON data tf1 = (v, None) /\ UnmarshalJSON data tf2 = (v, None))
  \/ (exists e, UnmarshalJSON data tf1 = (tf1, Some e) /\
                UnmarshalJSON data tf2 = (tf2, Some e)).
Proof.
  rewrite !UnmarshalJSON_unfold. cbv zeta.
  destruct ((string_of_bytes data =? "false")%string
            || (string_of_bytes data =? "null")%string).
  - left. exists 0. split; reflexivity.
  - destruct (strconv.ParseInt (string_of_bytes data) 10 32) as [i [e |]].
    + right. exists e. split; reflexivity.
    + left. exists (NoDataTimeframe_of i). split; reflexivity.
Qed.

(** C10, as the code has it. A leading plus sign is accepted: for every
    integer [n] from 0 to 2^31 - 1, the token [+] followed by the digits of
    [n] decodes to [n]. *)
Theorem C10_leading_plus_accepted (n : Z) (tf : NoDataTimeframe) :
  0 <= n <= 2 ^ 31 - 1 ->
  UnmarshalJSON (token (String "+" (strconv.FormatInt n 10))) tf = (n, None).
Proof.
  intros Hn. destruct (FormatInt_nonneg n ltac:(lia)) as [Hs Hv].
  rewrite UnmarshalJSON_parseable; rewrite string_of_bytes_token.
  - unfold literal_value. change ("+" =? "+")%char with true. cbv iota.
    rewrite Hv. reflexivity.
  - unfold parseable_int32, int_literal, literal_value.
    change ("+" =? "+")%char with true. cbn [orb]. cbv iota.
    rewrite Hs, Hv. apply in_int32_bounds. lia.
Qed.

Lemma C10_witness :
  UnmarshalJSON (token (String "+" (strconv.FormatInt 30 10))) 7 = (30, None).
Proof. apply (C10_leading_plus_accepted 30 7). lia. Defined.

(** C10 fails as stated on a negative integer of the range: for -5, the
    token [+] followed by the text [-5] is a syntax error, and the token
    [+] followed by the digit [5] decodes to 5, not -5. *)
Lemma C10_counterexample :
  in_int32 (-5) = true /\
  UnmarshalJSON (token (String "+" (strconv.FormatInt (-5) 10))) 7
  = (7, Some (strconv.syntaxError "ParseInt" "+-5")) /\
  UnmarshalJSON (token "+5") 7 = (5, None) /\
  UnmarshalJSON (token "+5") 7 <> (-5, None).
Proof.
  repeat split; try (vm_compute; reflexivity).
  vm_compute. discriminate.
Qed.

(* ===================================================================== *)
(** ** The client methods *)
(* ===================================================================== *)

Section ClientFacts.

Context {T : Transport}.














End ClientFacts.



(* ===================================================================== *)
(** ** More on the decoder *)
(* ===================================================================== *)

Section DecoderMore.

Import strconv.

Lemma parseLoop_first_not_digit (c : ascii) (rest : string) (n : Z) :
  is_digit c = false ->
  parseLoop 10 cutoff10 maxVal32 (String c rest) n = (0, Some ErrSyntax).
Proof.
  intros Hc. cbn [parseLoop].
  destruct (digitval (code c)) as [d |] eqn:Hd; [| reflexivity].
  pose proof (digitval_other c d Hc Hd) as Hb.
  change (byte8 10) with 10.
  destruct (Z.geb_spec d 10); [reflexivity | lia].
Qed.

Lemma ParseUint_no_leading_digit (s : string) :
  starts_with_digit s = false ->
  ParseUint s 10 32 = (0, Some (syntaxError fnParseUint s)).
Proof.
  destruct s as [| c rest]; [reflexivity |]. cbn [starts_with_digit]. intros Hc.
  rewrite ParseUint_10_32, (parseLoop_first_not_digit c rest 0 Hc). reflexivity.
Qed.

Lemma ParseInt_no_leading_digit (s : string) :
  starts_with_digit (unsigned_part s) = false ->
  ParseInt s 10 32 = (0, Some (syntaxError fnParseInt s)).
Proof.
  destruct s as [| c rest]; [reflexivity |].
  unfold unsigned_part. rewrite ParseInt_10_32.
  destruct (c =? "+")%char; [| destruct (c =? "-")%char]; cbn [orb];
    intros H; rewrite (ParseUint_no_leading_digit _ H); reflexivity.
Qed.

(** On a signed base-10 integer the decoder succeeds with [v] exactly when
    the integer is of the 32-bit range and [v] is its value. *)
Lemma UnmarshalJSON_literal_iff (data : list byte) (tf v : NoDataTimeframe) :
  int_literal (string_of_bytes data) = true ->
  UnmarshalJSON data tf = (v, None) <->
  in_int32 (literal_value (string_of_bytes data)) = true /\
  v = literal_value (string_of_bytes data).
Proof.
  intros Hlit. destruct (in_int32 (literal_value (string_of_bytes data))) eqn:Hr.
  - rewrite UnmarshalJSON_parseable
      by (unfold parseable_int32; rewrite Hlit, Hr; reflexivity).
    split.
    + intros E. injection E as <-. split; reflexivity.
    + intros [_ ->]. reflexivity.
  - assert (Ha : accepted (string_of_bytes data) = false).
    { unfold accepted, parseable_int32.
      rewrite (literal_not_keyword _ Hlit), Hlit, Hr. reflexivity. }
    destruct (UnmarshalJSON_rejected data tf Ha) as (k & -> & _).
    split; [discriminate | intros [? _]; discriminate].
Qed.

Lemma token_inj (s1 s2 : string) : token s1 = token s2 -> s1 = s2.
Proof.
  intros H. rewrite <- (string_of_bytes_token s1), <- (string_of_bytes_token s2), H.
  reflexivity.
Qed.

Lemma in_int64_bounds (v : Z) : in_int64 v = true <-> - 2 ^ 63 <= v < 2 ^ 63.
Proof.
  unfold in_int64. rewrite andb_true_iff, Z.leb_le, Z.ltb_lt. reflexivity.
Qed.

Lemma FormatInt_inj (i j : Z) :
  - 2 ^ 63 <= i < 2 ^ 63 -> - 2 ^ 63 <= j < 2 ^ 63 ->
  FormatInt i 10 = FormatInt j 10 -> i = j.
Proof.
  intros Hi Hj E.
  destruct (FormatInt_literal i Hi) as (_ & _ & <-).
  destruct (FormatInt_literal j Hj) as (_ & _ & <-).
  rewrite E. reflexivity.
Qed.

End DecoderMore.

(** X1. Whatever a successful decode stores is of the 32-bit signed range,
    although the type [NoDataTimeframe] is a Go [int]. *)
Theorem X1_stored_value_is_32_bit (data : list byte) (tf v : NoDataTimeframe) :
  UnmarshalJSON data tf = (v, None) -> - 2 ^ 31 <= v <= 2 ^ 31 - 1.
Proof.
  intros H. apply in_int32_bounds. exact (UnmarshalJSON_range data tf v H).
Qed.

Lemma X1_witness : - 2 ^ 31 <= 30 <= 2 ^ 31 - 1.
Proof. apply (X1_stored_value_is_32_bit (token "30") 7 30). reflexivity. Defined.

(** X2. Every error of the decoder is a [NumError] of [strconv.ParseInt]
    (never of [ParseUint]) about the whole token, and its cause is
    [ErrSyntax] or [ErrRange], never a base or bit-size error. *)
Theorem X2_error_shape (data : list byte) (tf : NoDataTimeframe) (e : strconv.NumError) :
  snd (UnmarshalJSON data tf) = Some e ->
  strconv.Func e = "ParseInt" /\
  strconv.Num e = string_of_bytes data /\
  (strconv.Cause e = strconv.ErrSyntax \/ strconv.Cause e = strconv.ErrRange).
Proof.
  intros H. destruct (accepted (string_of_bytes data)) eqn:Ha.
  - destruct (UnmarshalJSON_accepted data tf Ha) as [v Hv].
    rewrite Hv in H. discriminate.
  - destruct (UnmarshalJSON_rejected data tf Ha) as (k & E & Hk & _).
    rewrite E in H. cbn [snd] in H. injection H as <-.
    split; [reflexivity |]. split; [reflexivity | exact Hk].
Qed.

Lemma X2_witness :
  strconv.Func (strconv.rangeError "ParseInt" "99999999999") = "ParseInt" /\
  strconv.Num (strconv.rangeError "ParseInt" "99999999999")
  = string_of_bytes (token "99999999999") /\
  (strconv.Cause (strconv.rangeError "ParseInt" "99999999999") = strconv.ErrSyntax \/
   strconv.Cause (strconv.rangeError "ParseInt" "99999999999") = strconv.ErrRange).
Proof.
  apply (X2_error_shape (token "99999999999") 7
           (strconv.rangeError "ParseInt" "99999999999")).
  vm_compute. reflexivity.
Defined.

(** X3. Leading zeros do not matter: for a digit sequence [s], the token
    [0s] decodes to [v] exactly when the token [s] does. *)
Theorem X3_leading_zero_ignored (s : string) (tf v : NoDataTimeframe) :
  digit_seq s = true ->
  UnmarshalJSON (token (String "0" s)) tf = (v, None) <->
  UnmarshalJSON (token s) tf = (v, None).
Proof.
  intros Hs.
  assert (Hs0 : digit_seq (String "0" s) = true).
  { cbn [digit_seq all_digits]. rewrite (digit_seq_all s Hs). reflexivity. }
  destruct (digit_seq_literal s Hs) as (Hl & _ & Hv).
  destruct (digit_seq_literal _ Hs0) as (Hl0 & _ & Hv0).
  rewrite !UnmarshalJSON_literal_iff by (rewrite string_of_bytes_token; assumption).
  rewrite !string_of_bytes_token, Hv, Hv0. reflexivity.
Qed.

Lemma X3_witness :
  UnmarshalJSON (token "07") 1 = (7, None) <-> UnmarshalJSON (token "7") 1 = (7, None).
Proof. apply (X3_leading_zero_ignored "7" 1 7). reflexivity. Defined.

(** X4. A token whose first byte after an optional sign is not a digit
    (the empty token, a lone sign, two signs, a quoted string, [true], a
    bracket, leading white space, ...) is one of the two keywords, decoded
    to 0, or a syntax error that leaves the receiver as it was. *)
Theorem X4_no_leading_digit (data : list byte) (tf : NoDataTimeframe) :
  let s := string_of_bytes data in
  starts_with_digit (unsigned_part s) = false ->
  ((s = "false" \/ s = "null") /\ UnmarshalJSON data tf = (0, None))
  \/ (s <> "false" /\ s <> "null" /\
      UnmarshalJSON data tf = (tf, Some (strconv.syntaxError "ParseInt" s))).
Proof.
  intros s H. subst s. rewrite UnmarshalJSON_unfold. cbv zeta.
  destruct (String.eqb_spec (string_of_bytes data) "false") as [E | N1].
  { left. split; [left; exact E | reflexivity]. }
  destruct (String.eqb_spec (string_of_bytes data) "null") as [E | N2].
  { left. split; [right; exact E | reflexivity]. }
  right. cbn [orb]. rewrite (ParseInt_no_leading_digit _ H).
  repeat split; assumption.
Qed.

Lemma X4_witness :
  (("+-5" = "false" \/ "+-5" = "null") /\ UnmarshalJSON (token "+-5") 7 = (0, None))
  \/ ("+-5" <> "false" /\ "+-5" <> "null" /\
      UnmarshalJSON (token "+-5") 7 = (7, Some (strconv.syntaxError "ParseInt" "+-5"))).
Proof. apply (X4_no_leading_digit (token "+-5") 7). reflexivity. Defined.

(** X5. Decoding is idempotent on the receiver: decoding the same bytes a
    second time, into what the first call left, changes nothing. *)
Theorem X5_decoding_twice (data : list byte) (tf : NoDataTimeframe) :
  UnmarshalJSON data (fst (UnmarshalJSON data tf)) = UnmarshalJSON data tf.
Proof.
  rewrite (UnmarshalJSON_unfold data tf). cbv zeta.
  destruct ((string_of_bytes data =? "false")%string
            || (string_of_bytes data =? "null")%string) eqn:K.
  - cbn [fst]. rewrite UnmarshalJSON_unfold. cbv zeta. rewrite K. reflexivity.
  - destruct (strconv.ParseInt (string_of_bytes data) 10 32) as [i [e |]] eqn:P;
      cbn [fst]; rewrite UnmarshalJSON_unfold; cbv zeta; rewrite K, P; reflexivity.
Qed.

(* ===================================================================== *)
(** ** The encoder against the decoder *)
(* ===================================================================== *)

(** X6. Different values of the type have different encodings. *)
Theorem X6_Marshal_injective (v1 v2 : NoDataTimeframe) :
  - 2 ^ 63 <= v1 < 2 ^ 63 -> - 2 ^ 63 <= v2 < 2 ^ 63 ->
  v1 <> v2 -> Marshal v1 <> Marshal v2.
Proof.
  intros H1 H2 Hne E. apply Hne.
  apply (FormatInt_inj v1 v2 H1 H2), token_inj, E.
Qed.

Lemma X6_witness : Marshal 5 <> Marshal (-5).
Proof. apply (X6_Marshal_injective 5 (-5)); lia. Defined.

(** X7. A value of the type outside the 32-bit signed range does not
    survive a round trip: its own encoding is rejected by the decoder with
    a range error. *)
Theorem X7_wide_value_not_decodable (v tf : NoDataTimeframe) :
  - 2 ^ 63 <= v < 2 ^ 63 -> in_int32 v = false ->
  UnmarshalJSON (Marshal v) tf
  = (tf, Some (strconv.rangeError "ParseInt" (strconv.FormatInt v 10))).
Proof.
  intros Hv Hr. destruct (FormatInt_literal v Hv) as (Hlit & _ & Hval).
  assert (Ha : accepted (string_of_bytes (Marshal v)) = false).
  { unfold Marshal. rewrite string_of_bytes_token. unfold accepted, parseable_int32.
    rewrite (literal_not_keyword _ Hlit), Hlit, Hval, Hr. reflexivity. }
  destruct (UnmarshalJSON_rejected (Marshal v) tf Ha) as (k & -> & _ & Hk).
  unfold Marshal in Hk |- *. rewrite string_of_bytes_token in Hk |- *.
  rewrite (Hk Hlit). reflexivity.
Qed.

Lemma X7_witness :
  UnmarshalJSON (Marshal 2147483648) 7
  = (7, Some (strconv.rangeError "ParseInt" (strconv.FormatInt 2147483648 10))).
Proof. apply (X7_wide_value_not_decodable 2147483648 7); [lia | reflexivity]. Defined.

(* ===================================================================== *)
(** ** More on the client methods *)
(* ===================================================================== *)

Section StringFacts.

Lemma length_append (s t : string) :
  String.length (s ++ t) = (String.length s + String.length t)%nat.
Proof. induction s as [| c s IH]; cbn; [reflexivity | rewrite IH; reflexivity]. Qed.

Lemma append_assoc (s t u : string) : (s ++ t) ++ u = s ++ (t ++ u).
Proof. induction s as [| c s IH]; cbn; [reflexivity | rewrite IH; reflexivity]. Qed.

Lemma append_inj_head (s t1 t2 : string) : s ++ t1 = s ++ t2 -> t1 = t2.
Proof.
  induction s as [| c s IH]; cbn; intros H; [exact H |].
  injection H as H. apply IH, H.
Qed.

(** Two texts that end in tails of the same length are equal only if the
    tails are, and the heads. *)
Lemma append_inj_tail (s1 : string) :
  forall s2 t1 t2, String.length t1 = String.length t2 ->
    s1 ++ t1 = s2 ++ t2 -> s1 = s2 /\ t1 = t2.
Proof.
  induction s1 as [| c s1 IH]; intros [| d s2] t1 t2 Hlen H; cbn in H.
  - split; [reflexivity | exact H].
  - apply (f_equal String.length) in H. cbn in H. rewrite length_append in H. lia.
  - apply (f_equal String.length) in H. cbn in H. rewrite length_append in H. lia.
  - injection H as -> H. destruct (IH s2 t1 t2 Hlen H) as [-> ->].
    split; reflexivity.
Qed.

(** [strings.Join] does not tell an element with the separator in it from
    two elements. *)
Lemma Join_split (t1 t2 sep : string) (rest : list string) :
  Join ((t1 ++ sep ++ t2) :: rest) sep = Join (t1 :: t2 :: rest) sep.
Proof.
  unfold Join. destruct rest as [| r rest]; cbn [concat].
  - reflexivity.
  - rewrite !append_assoc. reflexivity.
Qed.

Lemma singleton_inj (a b : string) : cons a nil = cons b nil -> a = b.
Proof. intros H. exact (f_equal (hd EmptyString) H). Qed.

End StringFacts.

Section PathFacts.

Import strconv.

Lemma Sprintf_d_inj (prefix : string) (a b : Z) :
  - 2 ^ 63 <= a < 2 ^ 63 -> - 2 ^ 63 <= b < 2 ^ 63 ->
  Sprintf_d prefix a = Sprintf_d prefix b -> a = b.
Proof.
  intros Ha Hb E. apply append_inj_head in E. apply (FormatInt_inj a b Ha Hb E).
Qed.

Lemma Sprintf_d_suffix_inj (prefix suffix : string) (a b : Z) :
  - 2 ^ 63 <= a < 2 ^ 63 -> - 2 ^ 63 <= b < 2 ^ 63 ->
  Sprintf_d prefix a ++ suffix = Sprintf_d prefix b ++ suffix -> a = b.
Proof.
  intros Ha Hb E. apply append_inj_tail in E; [| reflexivity].
  apply (Sprintf_d_inj prefix a b Ha Hb), E.
Qed.

(** The text of an integer begins with a digit or a minus sign. *)
Lemma FormatInt_head (i : Z) :
  - 2 ^ 63 <= i < 2 ^ 63 ->
  exists c rest, FormatInt i 10 = String c rest /\ (is_digit c = true \/ c = "-"%char).
Proof.
  intros Hi. destruct (FormatInt_literal i Hi) as (_ & Hm & _).
  destruct (FormatInt i 10) as [| c rest]; [discriminate |].
  exists c, rest. split; [reflexivity |].
  unfold minus_digits in Hm. destruct (Ascii.eqb_spec c "-") as [-> | _].
  - right. reflexivity.
  - left. cbn [digit_seq all_digits] in Hm. apply andb_prop in Hm. apply Hm.
Qed.

(** No path made of [/v1/monitor/] and an integer, with or without a
    suffix, is [/v1/monitor/] followed by a word that begins with [m] or
    [u]. *)
Lemma Sprintf_d_not_word (i : Z) (suffix word : string) (c : ascii) :
  - 2 ^ 63 <= i < 2 ^ 63 -> is_digit c = false -> c <> "-"%char ->
  Sprintf_d "/v1/monitor/" i ++ suffix <> "/v1/monitor/" ++ String c word.
Proof.
  intros Hi Hc Hm E. unfold Sprintf_d in E. rewrite append_assoc in E.
  apply append_inj_head in E.
  destruct (FormatInt_head i Hi) as (d & rest & Hd & Hhead).
  rewrite Hd in E. cbn [append] in E. injection E as -> _.
  destruct Hhead as [Hdig | Heq]; congruence.
Qed.

End PathFacts.

Section RecorderFacts.

Context {E V : Type}.
Variable pq : string -> V * option E.
Variable enc : V -> string.
Variable reply :
  list Request -> Request -> forall k : OutKind, out_ty k -> out_ty k * option E.

Ltac run_recorder :=
  unfold sent, paths; cbn [doJSONRequest recorder];
  match goal with
  | |- context [reply ?w ?r ?k ?o] => destruct (reply w r k o) as [? [? |]]
  end; reflexivity.

Lemma sent_GetMonitor (id : Z) :
  sent (GetMonitor (T := recorder pq enc reply) id) = cons (Sprintf_d "/v1/monitor/" id) nil.
Proof. unfold GetMonitor. run_recorder. Qed.

Lemma sent_DeleteMonitor (id : Z) :
  sent (DeleteMonitor (T := recorder pq enc reply) id) = cons (Sprintf_d "/v1/monitor/" id) nil.
Proof. unfold DeleteMonitor. run_recorder. Qed.

Lemma sent_MuteMonitor (id : Z) :
  sent (MuteMonitor (T := recorder pq enc reply) id) = cons (Sprintf_d "/v1/monitor/" id ++ "/mute") nil.
Proof. unfold MuteMonitor. run_recorder. Qed.

Lemma sent_UnmuteMonitor (id : Z) :
  sent (UnmuteMonitor (T := recorder pq enc reply) id)
  = cons (Sprintf_d "/v1/monitor/" id ++ "/unmute") nil.
Proof. unfold UnmuteMonitor. run_recorder. Qed.

Lemma sent_MuteMonitors :
  sent (MuteMonitors (T := recorder pq enc reply)) = cons ("/v1/monitor/mute_all") nil.
Proof. unfold MuteMonitors. run_recorder. Qed.

Lemma sent_UnmuteMonitors :
  sent (UnmuteMonitors (T := recorder pq enc reply)) = cons ("/v1/monitor/unmute_all") nil.
Proof. unfold UnmuteMonitors. run_recorder. Qed.

End RecorderFacts.

(** X8. The methods that address one monitor never send two different ids
    to the same path, whatever the transport answers: [GetMonitor],
    [DeleteMonitor], [MuteMonitor] and [UnmuteMonitor] with different ids
    request different paths. *)
Theorem X8_paths_differ_by_id (E V : Type) (pq : string -> V * option E)
    (enc : V -> string)
    (reply : list Request -> Request -> forall k : OutKind, out_ty k -> out_ty k * option E)
    (id1 id2 : Z) :
  - 2 ^ 63 <= id1 < 2 ^ 63 -> - 2 ^ 63 <= id2 < 2 ^ 63 -> id1 <> id2 ->
  sent (GetMonitor (T := recorder pq enc reply) id1)
    <> sent (GetMonitor (T := recorder pq enc reply) id2) /\
  sent (DeleteMonitor (T := recorder pq enc reply) id1)
    <> sent (DeleteMonitor (T := recorder pq enc reply) id2) /\
  sent (MuteMonitor (T := recorder pq enc reply) id1)
    <> sent (MuteMonitor (T := recorder pq enc reply) id2) /\
  sent (UnmuteMonitor (T := recorder pq enc reply) id1)
    <> sent (UnmuteMonitor (T := recorder pq enc reply) id2).
Proof.
  intros H1 H2 Hne.
  rewrite !sent_GetMonitor, !sent_DeleteMonitor, !sent_MuteMonitor, !sent_UnmuteMonitor.
  repeat split; intros Heq; apply singleton_inj in Heq; apply Hne.
  - apply (Sprintf_d_inj _ id1 id2 H1 H2 Heq).
  - apply (Sprintf_d_inj _ id1 id2 H1 H2 Heq).
  - apply (Sprintf_d_suffix_inj _ _ id1 id2 H1 H2 Heq).
  - apply (Sprintf_d_suffix_inj _ _ id1 id2 H1 H2 Heq).
Qed.

Lemma X8_witness :
  sent (GetMonitor (T := silentRecorder) 7) <> sent (GetMonitor (T := silentRecorder) (-7)) /\
  sent (DeleteMonitor (T := silentRecorder) 7)
    <> sent (DeleteMonitor (T := silentRecorder) (-7)) /\
  sent (MuteMonitor (T := silentRecorder) 7)
    <> sent (MuteMonitor (T := silentRecorder) (-7)) /\
  sent (UnmuteMonitor (T := silentRecorder) 7)
    <> sent (UnmuteMonitor (T := silentRecorder) (-7)).
Proof.
  apply (X8_paths_differ_by_id string string (fun q => (q, None)) (fun v => v)
           (fun _ _ _ out => (out, None)) 7 (-7)); lia.
Defined.

(** X9. Muting or unmuting one monitor never requests the path that mutes
    or unmutes all of them, and muting never requests a path of unmuting,
    whatever the ids and whatever the transport answers. *)
Theorem X9_mute_paths_apart (E V : Type) (pq : string -> V * option E)
    (enc : V -> string)
    (reply : list Request -> Request -> forall k : OutKind, out_ty k -> out_ty k * option E)
    (id id' : Z) :
  - 2 ^ 63 <= id < 2 ^ 63 -> - 2 ^ 63 <= id' < 2 ^ 63 ->
  sent (MuteMonitor (T := recorder pq enc reply) id)
    <> sent (MuteMonitors (T := recorder pq enc reply)) /\
  sent (UnmuteMonitor (T := recorder pq enc reply) id)
    <> sent (UnmuteMonitors (T := recorder pq enc reply)) /\
  sent (MuteMonitor (T := recorder pq enc reply) id)
    <> sent (UnmuteMonitor (T := recorder pq enc reply) id').
Proof.
  intros H1 H2.
  rewrite sent_MuteMonitor, sent_UnmuteMonitor, sent_MuteMonitors, sent_UnmuteMonitors,
    sent_UnmuteMonitor.
  repeat split; intros Heq; apply singleton_inj in Heq.
  - change "/v1/monitor/mute_all" with ("/v1/monitor/" ++ String "m" "ute_all") in Heq.
    revert Heq. apply Sprintf_d_not_word; [exact H1 | reflexivity | discriminate].
  - change "/v1/monitor/unmute_all" with ("/v1/monitor/" ++ String "u" "nmute_all") in Heq.
    revert Heq. apply Sprintf_d_not_word; [exact H1 | reflexivity | discriminate].
  - change "/unmute" with ("/u" ++ "nmute") in Heq.
    rewrite <- append_assoc in Heq.
    apply append_inj_tail in Heq; [| reflexivity].
    destruct Heq as [_ Heq]. discriminate Heq.
Qed.

Lemma X9_witness :
  sent (MuteMonitor (T := silentRecorder) 7) <> sent (MuteMonitors (T := silentRecorder)) /\
  sent (UnmuteMonitor (T := silentRecorder) 7)
    <> sent (UnmuteMonitors (T := silentRecorder)) /\
  sent (MuteMonitor (T := silentRecorder) 7) <> sent (UnmuteMonitor (T := silentRecorder) 8).
Proof.
  apply (X9_mute_paths_apart string string (fun q => (q, None)) (fun v => v)
           (fun _ _ _ out => (out, None)) 7 8); lia.
Defined.

(** X10. [GetMonitorsByTags] joins the tags with commas and escapes
    nothing: a tag with a comma in it sends the same request, with the same
    result, as the two tags around the comma. *)
Theorem X10_tag_with_comma (T : Transport) (t1 t2 : string) (rest : list string)
    (w : World) :
  GetMonitorsByTags ((t1 ++ "," ++ t2) :: rest) w = GetMonitorsByTags (t1 :: t2 :: rest) w.
Proof.
  unfold GetMonitorsByTags. rewrite Join_split. reflexivity.
Qed.

Section StoredFacts.

Context {T : Transport}.

Ltac call_out w :=
  match goal with
  | |- context [doJSONRequest ?m ?a ?b ?k ?o w] =>
      let Ecall := fresh "Ecall" in
      destruct (doJSONRequest m a b k o w) as [[w' out'] err] eqn:Ecall;
      exists w', out', err; split; [exists m, a, b; exact Ecall |];
      destruct err; reflexivity
  end.

Lemma CreateMonitor_stored monitor : returns_stored_monitor (CreateMonitor monitor).
Proof. intros w. unfold CreateMonitor. call_out w. Qed.

Lemma GetMonitor_stored id : returns_stored_monitor (GetMonitor id).
Proof. intros w. unfold GetMonitor. call_out w. Qed.

Lemma GetMonitors_stored : returns_stored_monitors GetMonitors.
Proof. intros w. unfold GetMonitors. call_out w. Qed.

Lemma GetMonitorsByName_stored name :
  (exists e, snd (ParseQuery ("name=" ++ name)) = Some e)
  \/ returns_stored_monitors (GetMonitorsByName name).
Proof.
  unfold returns_stored_monitors, GetMonitorsByName.
  destruct (ParseQuery ("name=" ++ name)) as [query [e |]]; cbn [snd].
  - left. exists e. reflexivity.
  - right. intros w. call_out w.
Qed.

Lemma GetMonitorsByTags_stored tags :
  (exists e, snd (ParseQuery ("monitor_tags=" ++ Join tags ",")) = Some e)
  \/ returns_stored_monitors (GetMonitorsByTags tags).
Proof.
  unfold returns_stored_monitors, GetMonitorsByTags.
  destruct (ParseQuery ("monitor_tags=" ++ Join tags ",")) as [query [e |]]; cbn [snd].
  - left. exists e. reflexivity.
  - right. intros w. call_out w.
Qed.

End StoredFacts.

(** X11. What the methods return beside the error is what the transport
    stored, and nothing of it after an error: [CreateMonitor] and
    [GetMonitor] hand the transport a zero [Monitor] and return a pointer to
    it as the transport left it; [GetMonitors], [GetMonitorsByName] and
    [GetMonitorsByTags] hand it a nil slice and return that slice as the
    transport left it (the last two unless [url.ParseQuery] fails); after an
    error of the transport the result is nil even if something was
    stored. *)
Theorem X11_results_are_what_was_stored (T : Transport) :
  (forall monitor, returns_stored_monitor (CreateMonitor monitor)) /\
  (forall id, returns_stored_monitor (GetMonitor id)) /\
  returns_stored_monitors GetMonitors /\
  (forall name,
     (exists e, snd (ParseQuery ("name=" ++ name)) = Some e)
     \/ returns_stored_monitors (GetMonitorsByName name)) /\
  (forall tags,
     (exists e, snd (ParseQuery ("monitor_tags=" ++ Join tags ",")) = Some e)
     \/ returns_stored_monitors (GetMonitorsByTags tags)).
Proof.
  split; [exact CreateMonitor_stored |].
  split; [exact GetMonitor_stored |].
  split; [exact GetMonitors_stored |].
  split; [exact GetMonitorsByName_stored | exact GetMonitorsByTags_stored].
Qed.
